(** * ESPA ordering models: a shallow embedding of [web/ordering/models.py]

    The module under verification declares four Django models
    ([UserProfile], [Order], [Scene], [Configuration]) and a handful of
    methods on them: factories of default option dictionaries, two order-id
    generators and a key/value lookup.

    Python objects live in a store: a dictionary created by [o = {}] is a
    fresh location of the heap, [o[k] = v] and [o.update(d)] mutate it in
    place, and a method returns the reference.  Methods are therefore
    computations over a [world] (database tables, wall clock, heap). *)

From Stdlib Require Import ZArith Ascii DecimalString.
From stdpp Require Import base option list strings gmap fin_maps.


(** ** Python values *)

(** The values that the module stores in option dictionaries and feeds to
    the [%] string-formatting operator. *)
Inductive value : Type :=
  | VNone : value
  | VBool : bool -> value
  | VInt : Z -> value
  | VStr : string -> value.

(** [str(x)]: the text of a value.  An [int] is printed as its decimal
    numeral, without padding, with a leading [-] when negative.  A string
    is its own text, which is what the [%s] conversion inserts; the
    builtin [str] applied to stored text is [str_unicode] below. *)
Definition str (v : value) : string :=
  match v with
  | VNone => "None"
  | VBool true => "True"
  | VBool false => "False"
  | VInt z => NilZero.string_of_int (Z.to_int z)
  | VStr s => s
  end.

(** ** Exceptions *)

Inductive exn : Type :=
  | TypeError : exn
  | ValueError : exn
  | IndexError : exn
  | UnicodeEncodeError : exn.

Inductive result (A : Type) : Type :=
  | Ok : A -> result A
  | Raise : exn -> result A.
Arguments Ok {A} _.
Arguments Raise {A} _.

Definition result_bind {A B} (r : result A) (k : A -> result B) : result B :=
  match r with
  | Ok a => k a
  | Raise e => Raise e
  end.

Definition result_map {A B} (f : A -> B) (r : result A) : result B :=
  result_bind r (fun a => Ok (f a)).

Notation "'let!' x ':=' r 'in' k" := (result_bind r (fun x => k))
  (at level 10, x name, r at level 100, k at level 200).

(** ** The [%] operator on strings

    [fmt % args] with only [%s] conversions: every [%s] consumes the next
    argument and is replaced by its [str]; running out of arguments, or
    leaving some unused, raises [TypeError].  No other conversion occurs in
    the module; one would raise [ValueError] here. *)
Fixpoint percent_format (fmt : string) (args : list value) : result string :=
  match fmt with
  | EmptyString =>
      match args with
      | [] => Ok ""
      | _ :: _ => Raise TypeError
      end
  | String c rest =>
      if Ascii.eqb c "%"%char then
        match rest with
        | String c' rest' =>
            if Ascii.eqb c' "s"%char then
              match args with
              | a :: args' =>
                  result_map (String.append (str a)) (percent_format rest' args')
              | [] => Raise TypeError
              end
            else Raise ValueError
        | EmptyString => Raise ValueError
        end
      else result_map (String c) (percent_format rest args)
  end.


(** ** The data model *)

(** [datetime.datetime]: the fields of a point in time. *)
Record datetime : Type := mk_datetime {
  year : Z;
  month : Z;
  day : Z;
  hour : Z;
  minute : Z;
  second : Z;
  microsecond : Z
}.

(** What [datetime.datetime.now()] can return: a calendar date of the
    common era and a time of day. *)
Definition valid_datetime (d : datetime) : Prop :=
  (1 <= year d <= 9999 /\ 1 <= month d <= 12 /\ 1 <= day d <= 31 /\
   0 <= hour d <= 23 /\ 0 <= minute d <= 59 /\ 0 <= second d <= 59 /\
   0 <= microsecond d <= 999999)%Z.

(** Rows are identified by their primary key. *)
Definition pk : Type := nat.

Record UserProfile : Type := mk_UserProfile {
  UserProfile_user : pk;
  UserProfile_contactid : string
}.

Definition ORDER_TYPES : list (string * string) :=
  [("level2_ondemand", "Level 2 On Demand");
   ("lpvs", "Product Validation")].

Definition Order_STATUS : list (string * string) :=
  [("ordered", "Ordered");
   ("partial", "Partially Filled");
   ("complete", "Complete")].

Definition ORDER_SOURCE : list (string * string) :=
  [("espa", "ESPA");
   ("ee", "EE")].

Record Order : Type := mk_Order {
  Order_orderid : string;
  Order_email : string;
  Order_user : pk;
  Order_order_type : string;
  Order_order_date : datetime;
  Order_completion_date : option datetime;
  Order_status : string;
  Order_note : option string;
  Order_product_options : string;
  Order_order_source : string;
  Order_ee_order_id : string
}.

(** Enumeration of the status flags a scene may have: (stored code, label). *)
Definition Scene_STATUS : list (string * string) :=
  [("submitted", "Submitted");
   ("onorder", "On Order");
   ("oncache", "On Cache");
   ("queued", "Queued");
   ("processing", "Processing");
   ("complete", "Complete");
   ("purged", "Purged");
   ("unavailable", "Unavailable");
   ("error", "Error")].

Record Scene : Type := mk_Scene {
  Scene_name : string;
  Scene_note : option string;
  Scene_order : pk;
  Scene_product_distro_location : string;
  Scene_product_dload_url : string;
  Scene_cksum_distro_location : string;
  Scene_cksum_download_url : string;
  Scene_tram_order_id : option string;
  Scene_ee_unit_id : option Z;
  Scene_status : string;
  Scene_processing_location : string;
  Scene_completion_date : option datetime;
  Scene_log_file_contents : option string
}.

Record Configuration : Type := mk_Configuration {
  Configuration_key : string;
  Configuration_value : string
}.

(** The tables, each in the order in which a query returns its rows. *)
Record database : Type := mk_database {
  UserProfile_objects : list UserProfile;
  Order_objects : list Order;
  Scene_objects : list Scene;
  Configuration_objects : list Configuration
}.

(** ** The store *)

(** A [dict] with string keys, and the heap of the dictionaries alive. *)
Abbreviation dict := (gmap string value).
Definition loc : Type := nat.
Abbreviation store := (gmap loc dict).

Record world : Type := mk_world {
  db : database;
  clock : datetime;
  heap : store
}.

Definition set_heap (h : store) (w : world) : world :=
  {| db := db w; clock := clock w; heap := h |}.

(** Computations over the world. *)
Definition M (A : Type) : Type := world -> A * world.

#[global] Instance M_ret : MRet M := fun A (a : A) w => (a, w).
#[global] Instance M_bind : MBind M :=
  fun A B (k : A -> M B) (m : M A) w => let '(a, w') := m w in k a w'.

Definition eval {A} (m : M A) (w : world) : A := fst (m w).
Definition exec {A} (m : M A) (w : world) : world := snd (m w).

(** [o = {}] *)
Definition new_dict : M loc :=
  fun w => let l := fresh (dom (heap w)) in (l, set_heap (<[l := ∅]> (heap w)) w).

(** [o[k] = v] *)
Definition setitem (o : loc) (k : string) (v : value) : M unit :=
  fun w => (tt, set_heap (alter (insert k v) o (heap w)) w).

(** [o.update(other)]: every key of [other] is set in [o] to the value
    it has in [other]. *)
Definition update (o other : loc) : M unit :=
  fun w =>
    match heap w !! other with
    | Some d => (tt, set_heap (alter (fun x => d ∪ x) o (heap w)) w)
    | None => (tt, w)
    end.

(** [datetime.datetime.now()] *)
Definition now : M datetime := fun w => (clock w, w).

(** [Configuration.objects.filter(key=key)]: the rows with that key, in
    query order. *)
Definition Configuration_objects_filter (key : string) : M (list Configuration) :=
  fun w =>
    (filter (fun r => Configuration_key r = key) (Configuration_objects (db w)), w).

(** ** Methods of [Order] *)

Definition get_default_product_options (self : Order) : M loc :=
  o ← new_dict;
  setitem o "include_sourcefile" (VBool false);;
  setitem o "include_source_metadata" (VBool false);;
  setitem o "include_sr_toa" (VBool false);;
  setitem o "include_sr_thermal" (VBool false);;
  setitem o "include_sr" (VBool false);;
  setitem o "include_sr_browse" (VBool false);;
  setitem o "include_sr_ndvi" (VBool false);;
  setitem o "include_sr_ndmi" (VBool false);;
  setitem o "include_sr_nbr" (VBool false);;
  setitem o "include_sr_nbr2" (VBool false);;
  setitem o "include_sr_savi" (VBool false);;
  setitem o "include_sr_msavi" (VBool false);;
  setitem o "include_sr_evi" (VBool false);;
  setitem o "include_swe" (VBool false);;
  setitem o "include_sca" (VBool false);;
  setitem o "include_solr_index" (VBool false);;
  setitem o "include_cfmask" (VBool false);;
  mret o.

Definition get_default_projection_options (self : Order) : M loc :=
  o ← new_dict;
  setitem o "reproject" (VBool false);;
  setitem o "target_projection" VNone;;
  setitem o "central_meridian" VNone;;
  setitem o "false_easting" VNone;;
  setitem o "false_northing" VNone;;
  setitem o "origin_lat" VNone;;
  setitem o "std_parallel_1" VNone;;
  setitem o "std_parallel_2" VNone;;
  setitem o "datum" (VStr "wgs84");;
  setitem o "utm_zone" VNone;;
  setitem o "utm_north_south" VNone;;
  mret o.

Definition get_default_subset_options (self : Order) : M loc :=
  o ← new_dict;
  setitem o "image_extents" (VBool false);;
  setitem o "minx" VNone;;
  setitem o "miny" VNone;;
  setitem o "maxx" VNone;;
  setitem o "maxy" VNone;;
  mret o.

Definition get_default_resize_options (self : Order) : M loc :=
  o ← new_dict;
  setitem o "resize" (VBool false);;
  setitem o "pixel_size" VNone;;
  setitem o "pixel_size_units" VNone;;
  mret o.

Definition get_default_resample_options (self : Order) : M loc :=
  o ← new_dict;
  setitem o "resample_method" (VStr "near");;
  mret o.

Definition get_default_options (self : Order) : M loc :=
  o ← new_dict;
  (d ← get_default_product_options self; update o d);;
  (d ← get_default_projection_options self; update o d);;
  (d ← get_default_subset_options self; update o d);;
  (d ← get_default_resize_options self; update o d);;
  (d ← get_default_resample_options self; update o d);;
  mret o.

Definition get_default_ee_options (self : Order) : M loc :=
  o ← new_dict;
  setitem o "include_sourcefile" (VBool false);;
  setitem o "include_source_metadata" (VBool false);;
  setitem o "include_sr_toa" (VBool false);;
  setitem o "include_sr_thermal" (VBool false);;
  setitem o "include_sr" (VBool true);;
  setitem o "include_sr_browse" (VBool false);;
  setitem o "include_sr_ndvi" (VBool false);;
  setitem o "include_sr_ndmi" (VBool false);;
  setitem o "include_sr_nbr" (VBool false);;
  setitem o "include_sr_nbr2" (VBool false);;
  setitem o "include_sr_savi" (VBool false);;
  setitem o "include_sr_evi" (VBool false);;
  setitem o "include_solr_index" (VBool false);;
  setitem o "include_cfmask" (VBool false);;
  setitem o "reproject" (VBool false);;
  setitem o "resize" (VBool false);;
  setitem o "image_extents" (VBool false);;
  mret o.

Definition generate_order_id (self : Order) (email : value) : M (result string) :=
  d ← now;
  mret (percent_format "%s-%s%s%s-%s%s%s"
          [email;
           VInt (month d);
           VInt (day d);
           VInt (year d);
           VInt (hour d);
           VInt (minute d);
           VInt (second d)]).

Definition generate_ee_order_id (self : Order) (email eeorder : value) : M (result string) :=
  mret (percent_format "%s-%s" [email; eeorder]).

(** ** Methods of [Configuration] *)

(** [c[0]] on a query set. *)
Definition getitem0 {A} (c : list A) : result A :=
  match c with
  | x :: _ => Ok x
  | [] => Raise IndexError
  end.

(** Stored text is unicode; it is held here as the string of its UTF-8
    bytes, so that it is ASCII text when every byte is below 128. *)
Definition is_ascii_char (c : ascii) : bool :=
  match c with
  | Ascii _ _ _ _ _ _ _ b7 => negb b7
  end.

Fixpoint is_ascii (s : string) : bool :=
  match s with
  | EmptyString => true
  | String c s' => is_ascii_char c && is_ascii s'
  end.

(** [str(u)] on a unicode object: [u] is encoded with the default codec,
    ASCII, which raises [UnicodeEncodeError] at the first character
    outside it. *)
Definition str_unicode (u : string) : result string :=
  if is_ascii u then Ok u else Raise UnicodeEncodeError.

Definition getValue (self : Configuration) (key : string) : M (result string) :=
  c ← Configuration_objects_filter key;
  if (0 <? length c)%nat then
    mret (let! r := getitem0 c in str_unicode (Configuration_value r))
  else
    mret (Ok "").

(** ** Observations on a run *)

(** The dictionary that a factory [m], run from [w], hands back. *)
Definition built (m : M loc) (w : world) : dict :=
  default ∅ (heap (exec m w) !! eval m w).

(** A run from [w] to [w'] that created the dictionary [d] at a location
    [l] unknown to [w], and touched neither the tables, nor the clock, nor
    any dictionary that [w] already had. *)
Record builds (w : world) (l : loc) (d : dict) (w' : world) : Prop := mk_builds {
  builds_db : db w' = db w;
  builds_clock : clock w' = clock w;
  builds_fresh : heap w !! l = None;
  builds_at : heap w' !! l = Some d;
  builds_frame : forall l' d', heap w !! l' = Some d' -> heap w' !! l' = Some d'
}.

(** [m] is a factory of the constant dictionary [d]. *)
Definition factory_of (m : M loc) (d : dict) : Prop :=
  forall w, builds w (eval m w) d (exec m w).

(** The five [o.update(...)] lines of [get_default_options], with the list
    of component factories as a parameter. *)
Definition update_from (o : loc) (f : M loc) : M unit :=
  d ← f; update o d.

Definition merge_defaults (factories : list (M loc)) : M loc :=
  o ← new_dict;
  foldr (fun f rest => update_from o f;; rest) (mret tt) factories;;
  mret o.

Definition component_factories (self : Order) : list (M loc) :=
  [get_default_product_options self;
   get_default_projection_options self;
   get_default_subset_options self;
   get_default_resize_options self;
   get_default_resample_options self].

(** What a sequence of [update]s leaves in an initially empty dictionary. *)
Definition updates (ds : list dict) : dict :=
  foldl (fun acc d => d ∪ acc) ∅ ds.

(** The dictionaries of a list agree wherever two of them share a key. *)
Definition consistent (ds : list dict) : Prop :=
  forall d1 d2 k v1 v2,
    d1 ∈ ds -> d2 ∈ ds -> d1 !! k = Some v1 -> d2 !! k = Some v2 -> v1 = v2.

(** The product-inclusion flags of the self-service defaults. *)
Definition product_flags : list string :=
  ["include_sourcefile"; "include_source_metadata"; "include_sr_toa";
   "include_sr_thermal"; "include_sr"; "include_sr_browse";
   "include_sr_ndvi"; "include_sr_ndmi"; "include_sr_nbr";
   "include_sr_nbr2"; "include_sr_savi"; "include_sr_msavi";
   "include_sr_evi"; "include_swe"; "include_sca"; "include_solr_index";
   "include_cfmask"].

(** The product flags that the Earth Explorer defaults leave out. *)
Definition ee_omitted_flags : list string :=
  ["include_sr_msavi"; "include_swe"; "include_sca"].

(** A world for examples: empty tables, an empty heap, a given clock. *)
Definition empty_db : database :=
  {| UserProfile_objects := []; Order_objects := [];
     Scene_objects := []; Configuration_objects := [] |}.

Definition world_at (d : datetime) : world :=
  {| db := empty_db; clock := d; heap := ∅ |}.

Definition epoch : datetime := mk_datetime 1970 1 1 0 0 0 0.

Definition an_order : Order :=
  {| Order_orderid := "a@b.gov-152014-953";
     Order_email := "a@b.gov";
     Order_user := 1;
     Order_order_type := "level2_ondemand";
     Order_order_date := mk_datetime 2014 1 5 9 5 3 0;
     Order_completion_date := None;
     Order_status := "ordered";
     Order_note := None;
     Order_product_options := "{}";
     Order_order_source := "espa";
     Order_ee_order_id := "" |}.

(** The contents of the default dictionaries, read off a run in an empty
    world. *)
Definition product_defaults : dict :=
  built (get_default_product_options an_order) (world_at epoch).
Definition projection_defaults : dict :=
  built (get_default_projection_options an_order) (world_at epoch).
Definition subset_defaults : dict :=
  built (get_default_subset_options an_order) (world_at epoch).
Definition resize_defaults : dict :=
  built (get_default_resize_options an_order) (world_at epoch).
Definition resample_defaults : dict :=
  built (get_default_resample_options an_order) (world_at epoch).
Definition ee_defaults : dict :=
  built (get_default_ee_options an_order) (world_at epoch).
Definition espa_defaults : dict :=
  built (get_default_options an_order) (world_at epoch).

Definition component_defaults : list dict :=
  [product_defaults; projection_defaults; subset_defaults;
   resize_defaults; resample_defaults].

(** What a caller can observe of a factory call: the tables and the clock
    are as before, every dictionary that existed is as before, the
    dictionary handed back did not exist before, and a second call hands
    back yet another one without disturbing the first. *)
Definition returns_fresh_dict (m : M loc) (w : world) : Prop :=
  db (exec m w) = db w /\
  clock (exec m w) = clock w /\
  (forall l d, heap w !! l = Some d -> heap (exec m w) !! l = Some d) /\
  heap w !! eval m w = None /\
  is_Some (heap (exec m w) !! eval m w) /\
  eval m (exec m w) <> eval m w /\
  heap (exec m (exec m w)) !! eval m w = heap (exec m w) !! eval m w.

(** The order id as the comment on [Order.orderid] and the specification
    describe it: [email-MMDDYYYY-HHMMSS] with two-digit hour, minute and
    second.  Not part of the code; it is what [generate_order_id] is
    compared with. *)
Definition two_digits (z : Z) : string :=
  if (z <? 10)%Z then "0" +:+ str (VInt z) else str (VInt z).

Definition order_id_as_specified (email : string) (d : datetime) : string :=
  email +:+ "-" +:+ str (VInt (month d)) +:+ str (VInt (day d))
        +:+ str (VInt (year d)) +:+ "-"
        +:+ two_digits (hour d) +:+ two_digits (minute d)
        +:+ two_digits (second d).

(** ** Display methods *)

(** [Order.__unicode__] *)
Definition Order__unicode__ (self : Order) : M (result string) :=
  mret (Ok (Order_orderid self)).

(** [Scene.__unicode__] *)
Definition Scene__unicode__ (self : Scene) : M (result string) :=
  mret (percent_format "%s (%s)"
          [VStr (Scene_name self); VStr (Scene_status self)]).

(** [Configuration.__unicode__] *)
Definition Configuration__unicode__ (self : Configuration) : M (result string) :=
  mret (percent_format "%s : %s"
          [VStr (Configuration_key self); VStr (Configuration_value self)]).

(** ** Column widths

    The [max_length] of the character columns that hold generated ids and
    choice codes. *)
Definition Order_orderid_max_length : nat := 255.
Definition Order_order_type_max_length : nat := 50.
Definition Order_status_max_length : nat := 20.
Definition Order_order_source_max_length : nat := 10.
Definition Order_ee_order_id_max_length : nat := 13.
Definition Scene_status_max_length : nat := 30.

(** [c in s] for a character and a string. *)
Fixpoint contains (c : ascii) (s : string) : bool :=
  match s with
  | EmptyString => false
  | String c' s' => if Ascii.eqb c c' then true else contains c s'
  end.


(** A table with a given list of [Configuration] rows. *)
Definition with_configuration (rows : list Configuration) (w : world) : world :=
  {| db := {| UserProfile_objects := UserProfile_objects (db w);
              Order_objects := Order_objects (db w);
              Scene_objects := Scene_objects (db w);
              Configuration_objects := rows |};
     clock := clock w;
     heap := heap w |}.

(** The check that the decimal numeral of [n] has between one and four
    characters, and at most two when [n] is below 100. *)
Definition numeral_length_ok (n : nat) : bool :=
  let l := String.length (str (VInt (Z.of_nat n))) in
  (1 <=? l)%nat && (l <=? 4)%nat && ((99 <? n)%nat || (l <=? 2)%nat).

(** * Properties *)

#[global] Opaque product_defaults projection_defaults subset_defaults
  resize_defaults resample_defaults ee_defaults espa_defaults.

(** ** String formatting *)

Example percent_format_two :
  percent_format "%s-%s" [VStr "a@b.gov"; VInt 7] = Ok "a@b.gov-7".
Proof. reflexivity. Qed.

Example str_int_examples :
  str (VInt 0) = "0" /\ str (VInt 9) = "9" /\ str (VInt 2014) = "2014" /\ str (VInt (-3)) = "-3".
Proof. repeat split. Qed.

(** ** Running computations *)

Lemma eval_bind {A B} (m : M A) (k : A -> M B) w :
  eval (m ≫= k) w = eval (k (eval m w)) (exec m w).
Proof. unfold eval, exec, mbind, M_bind. by destruct (m w). Qed.

Lemma exec_bind {A B} (m : M A) (k : A -> M B) w :
  exec (m ≫= k) w = exec (k (eval m w)) (exec m w).
Proof. unfold eval, exec, mbind, M_bind. by destruct (m w). Qed.

Lemma eval_ret {A} (a : A) w : eval (mret a) w = a.
Proof. done. Qed.

Lemma exec_ret {A} (a : A) w : exec (mret a) w = w.
Proof. done. Qed.

Ltac run :=
  repeat (rewrite ?eval_bind, ?exec_bind, ?eval_ret, ?exec_ret; cbv beta).

(** ** The store discipline of the factories *)

Lemma builds_new_dict w : builds w (eval new_dict w) ∅ (exec new_dict w).
Proof.
  unfold eval, exec, new_dict; simpl.
  assert (Hfresh : heap w !! fresh (dom (heap w)) = None).
  { apply not_elem_of_dom, is_fresh. }
  split; simpl; try done.
  - apply lookup_insert_eq.
  - intros l' d' Hl'. rewrite lookup_insert_ne; [done | congruence].
Qed.

Lemma builds_setitem w l d w1 k v :
  builds w l d w1 -> builds w l (<[k := v]> d) (exec (setitem l k v) w1).
Proof.
  intros [Hdb Hclock Hfresh Hat Hframe].
  unfold exec, setitem; split; simpl; try done.
  - by rewrite lookup_alter_eq, Hat.
  - intros l' d' Hl'. rewrite lookup_alter_ne; [by apply Hframe | congruence].
Qed.

(** A nested factory call keeps the dictionary under construction and adds
    its own. *)
Lemma builds_call w l d w1 l2 d2 w2 :
  builds w l d w1 -> builds w1 l2 d2 w2 ->
  builds w l d w2 /\ heap w2 !! l2 = Some d2.
Proof.
  intros [Hdb Hclock Hfresh Hat Hframe] [Hdb2 Hclock2 Hfresh2 Hat2 Hframe2].
  split; [split |]; try congruence; auto.
Qed.

Lemma builds_update w l d w2 l2 d2 :
  builds w l d w2 -> heap w2 !! l2 = Some d2 ->
  builds w l (d2 ∪ d) (exec (update l l2) w2).
Proof.
  intros [Hdb Hclock Hfresh Hat Hframe] Hl2.
  unfold exec, update; rewrite Hl2; split; simpl; try done.
  - by rewrite lookup_alter_eq, Hat.
  - intros l' d' Hl'. rewrite lookup_alter_ne; [by apply Hframe | congruence].
Qed.

Lemma builds_update_from w l d w1 f c :
  builds w l d w1 -> factory_of f c ->
  builds w l (c ∪ d) (exec (update_from l f) w1).
Proof.
  intros Hb Hf. unfold update_from. run.
  destruct (builds_call _ _ _ _ _ _ _ Hb (Hf w1)) as [Hb2 Hat2].
  by apply builds_update.
Qed.

Lemma built_factory m d w : factory_of m d -> built m w = d.
Proof. intros Hm. unfold built. by rewrite (builds_at _ _ _ _ (Hm w)). Qed.

Lemma builds_content w l c d w' : builds w l c w' -> c = d -> builds w l d w'.
Proof. by intros H <-. Qed.

(** A factory made of [o = {}] followed by item assignments: the run is
    replayed backwards from the last assignment to the allocation, and the
    dictionary so obtained is compared with the expected one. *)
Ltac straight_line_factory f :=
  let w := fresh "w" in
  intros w; unfold f; run;
  eapply builds_content;
  [ repeat (eapply builds_setitem); apply builds_new_dict
  | match goal with |- _ = ?d => vm_cast_no_check (@eq_refl dict d) end ].

Lemma get_default_product_options_factory self :
  factory_of (get_default_product_options self) product_defaults.
Proof. straight_line_factory get_default_product_options. Qed.

Lemma get_default_projection_options_factory self :
  factory_of (get_default_projection_options self) projection_defaults.
Proof. straight_line_factory get_default_projection_options. Qed.

Lemma get_default_subset_options_factory self :
  factory_of (get_default_subset_options self) subset_defaults.
Proof. straight_line_factory get_default_subset_options. Qed.

Lemma get_default_resize_options_factory self :
  factory_of (get_default_resize_options self) resize_defaults.
Proof. straight_line_factory get_default_resize_options. Qed.

Lemma get_default_resample_options_factory self :
  factory_of (get_default_resample_options self) resample_defaults.
Proof. straight_line_factory get_default_resample_options. Qed.

Lemma get_default_ee_options_factory self :
  factory_of (get_default_ee_options self) ee_defaults.
Proof. straight_line_factory get_default_ee_options. Qed.

(** ** Merging by [update] *)

Lemma updates_snoc ds d : updates (ds ++ [d]) = d ∪ updates ds.
Proof. unfold updates. by rewrite foldl_snoc. Qed.

Lemma consistent_snoc ds d : consistent (ds ++ [d]) -> consistent ds.
Proof.
  intros Hc d1 d2 k v1 v2 H1 H2. apply Hc; apply elem_of_app; by left.
Qed.

(** In a consistent list, a key is bound in the merge exactly to what some
    component binds it to. *)
Lemma updates_lookup ds k v :
  consistent ds ->
  updates ds !! k = Some v <-> exists d, d ∈ ds /\ d !! k = Some v.
Proof.
  induction ds as [| d ds IH] using rev_ind; intros Hc.
  - unfold updates; simpl. rewrite lookup_empty. split; [done |].
    intros (d & Hd & _). by apply elem_of_nil in Hd.
  - rewrite updates_snoc, lookup_union_Some_raw.
    specialize (IH (consistent_snoc _ _ Hc)). split.
    + intros [Hd | [_ Hds]].
      * exists d. split; [apply elem_of_app; right; by apply list_elem_of_singleton | done].
      * apply IH in Hds as (d' & Hd' & Hk). exists d'.
        split; [apply elem_of_app; by left | done].
    + intros (d' & Hd' & Hk). apply elem_of_app in Hd' as [Hd' | Hd'].
      * destruct (d !! k) as [v' |] eqn:Hdk.
        -- left. f_equal. apply (Hc d d' k v' v); try done.
           ++ apply elem_of_app; right; by apply list_elem_of_singleton.
           ++ apply elem_of_app; by left.
        -- right. split; [done |]. apply IH. by exists d'.
      * apply list_elem_of_singleton in Hd' as ->. by left.
Qed.

Lemma consistent_perm ds ds' : ds ≡ₚ ds' -> consistent ds -> consistent ds'.
Proof.
  intros Hp Hc d1 d2 k v1 v2 H1 H2. apply Hc; by rewrite Hp.
Qed.

(** Hence the merge of a consistent list does not depend on the order of
    its components. *)
Lemma updates_perm ds ds' :
  ds ≡ₚ ds' -> consistent ds -> updates ds = updates ds'.
Proof.
  intros Hp Hc. apply map_eq; intros k. apply option_eq; intros v.
  rewrite (updates_lookup ds k v Hc).
  rewrite (updates_lookup ds' k v (consistent_perm _ _ Hp Hc)).
  split; intros (d & Hd & Hk); exists d; split; try done.
  - by rewrite <- Hp.
  - by rewrite Hp.
Qed.

(** The loop of [update]s, started on a dictionary under construction. *)
Lemma update_loop_builds fs cs :
  Forall2 factory_of fs cs ->
  forall w l d w1,
    builds w l d w1 ->
    builds w l (foldl (fun acc c => c ∪ acc) d cs)
      (exec (foldr (fun f rest => update_from l f;; rest) (mret tt) fs) w1).
Proof.
  induction 1 as [| f c fs cs Hf _ IH]; intros w l d w1 Hb; simpl.
  - by rewrite exec_ret.
  - rewrite exec_bind. apply IH. by apply builds_update_from.
Qed.

Lemma merge_defaults_factory fs cs :
  Forall2 factory_of fs cs -> factory_of (merge_defaults fs) (updates cs).
Proof.
  intros HF w. unfold merge_defaults. run.
  apply (update_loop_builds fs cs HF), builds_new_dict.
Qed.

Lemma run_pair {A} (m : M A) w : m w = (eval m w, exec m w).
Proof. unfold eval, exec. by destruct (m w). Qed.

(** [get_default_options] is the merge of the five component factories, in
    the order product, projection, subset, resize, resample. *)
Lemma get_default_options_merge self w :
  get_default_options self w = merge_defaults (component_factories self) w.
Proof.
  rewrite (run_pair (get_default_options self)), (run_pair (merge_defaults _)).
  unfold get_default_options, merge_defaults, component_factories, update_from.
  simpl foldr. by run.
Qed.

Lemma component_factories_spec self :
  Forall2 factory_of (component_factories self) component_defaults.
Proof.
  unfold component_factories, component_defaults.
  constructor; [apply get_default_product_options_factory |].
  constructor; [apply get_default_projection_options_factory |].
  constructor; [apply get_default_subset_options_factory |].
  constructor; [apply get_default_resize_options_factory |].
  constructor; [apply get_default_resample_options_factory |].
  constructor.
Qed.

Lemma updates_component_defaults : updates component_defaults = espa_defaults.
Proof. vm_cast_no_check (@eq_refl dict espa_defaults). Qed.

Lemma get_default_options_factory self :
  factory_of (get_default_options self) espa_defaults.
Proof.
  intros w.
  assert (He : eval (get_default_options self) w
               = eval (merge_defaults (component_factories self)) w).
  { unfold eval. by rewrite get_default_options_merge. }
  assert (Hx : exec (get_default_options self) w
               = exec (merge_defaults (component_factories self)) w).
  { unfold exec. by rewrite get_default_options_merge. }
  rewrite He, Hx, <- updates_component_defaults.
  exact (merge_defaults_factory _ _ (component_factories_spec self) w).
Qed.

(** ** Order identifiers *)

Lemma append_cons c (s t : string) : String c s +:+ t = String c (s +:+ t).
Proof. reflexivity. Qed.

Lemma append_empty_r (s : string) : s +:+ "" = s.
Proof.
  induction s as [| c s IH]; [done |]. by rewrite append_cons, IH.
Qed.

Lemma append_inv_head (s a b : string) : s +:+ a = s +:+ b -> a = b.
Proof.
  induction s as [| c s IH]; [done |].
  rewrite !append_cons. intros [= H]. by apply IH.
Qed.

Lemma generate_ee_order_id_eval self email eeorder w :
  eval (generate_ee_order_id self (VStr email) (VStr eeorder)) w
  = Ok (email +:+ "-" +:+ eeorder).
Proof.
  unfold generate_ee_order_id. rewrite eval_ret.
  lazy [percent_format Ascii.eqb Bool.eqb result_map result_bind str].
  by rewrite append_empty_r.
Qed.

(** The id of a self-service order is the email, a dash, the month, day and
    year, a dash, and the hour, minute and second, every number printed by
    [str], that is without padding. *)
Lemma generate_order_id_eval self email w :
  eval (generate_order_id self (VStr email)) w
  = Ok (email +:+ "-" +:+ str (VInt (month (clock w)))
              +:+ str (VInt (day (clock w)))
              +:+ str (VInt (year (clock w))) +:+ "-"
              +:+ str (VInt (hour (clock w)))
              +:+ str (VInt (minute (clock w)))
              +:+ str (VInt (second (clock w)))).
Proof.
  unfold generate_order_id. run.
  change (eval now w) with (clock w).
  lazy [percent_format Ascii.eqb Bool.eqb result_map result_bind].
  by rewrite append_empty_r.
Qed.

(** Two distinct times of one day get the same id: 01:11:01 and 11:01:01
    are both printed [1111]. *)
Lemma generate_order_id_collision self email d h :
  eval (generate_order_id self (VStr email))
       (mk_world d (mk_datetime 2014 1 5 1 11 1 0) h)
  = eval (generate_order_id self (VStr email))
       (mk_world d (mk_datetime 2014 1 5 11 1 1 0) h).
Proof. by rewrite !generate_order_id_eval. Qed.

(** C1 (the code departs from the claim).  At 09:05:03 on 5 January 2014
    [generate_order_id] returns [email-152014-953]: hour, minute and second
    take one character each, where the two-digit rendering that the claim
    and the comment on [Order.orderid] describe is [email-152014-090503]. *)
Theorem generate_order_id_unpadded_time (self : Order) (email : string)
    (d : database) (h : gmap loc (gmap string value)) :
  let w := mk_world d (mk_datetime 2014 1 5 9 5 3 0) h in
  valid_datetime (clock w) /\
  eval (generate_order_id self (VStr email)) w = Ok (email +:+ "-152014-953") /\
  order_id_as_specified email (clock w) = email +:+ "-152014-090503" /\
  eval (generate_order_id self (VStr email)) w
    <> Ok (order_id_as_specified email (clock w)).
Proof.
  intros w. split; [| split; [| split]].
  - unfold valid_datetime; simpl. lia.
  - by rewrite generate_order_id_eval.
  - done.
  - rewrite generate_order_id_eval. intros [= H].
    by apply append_inv_head in H.
Qed.

(** C3.  The id of an Earth Explorer order is the email, a dash and the
    Earth Explorer order id; for a fixed email it is injective in the Earth
    Explorer order id; and it depends on nothing but its two arguments:
    whatever the worlds of two calls, equal arguments give equal ids. *)
Theorem generate_ee_order_id_spec (self : Order) (email eeorder eeorder' : string)
    (w w' : world) :
  eval (generate_ee_order_id self (VStr email) (VStr eeorder)) w
    = Ok (email +:+ "-" +:+ eeorder) /\
  (eval (generate_ee_order_id self (VStr email) (VStr eeorder)) w
     = eval (generate_ee_order_id self (VStr email) (VStr eeorder')) w' ->
   eeorder = eeorder') /\
  eval (generate_ee_order_id self (VStr email) (VStr eeorder)) w
    = eval (generate_ee_order_id self (VStr email) (VStr eeorder)) w'.
Proof.
  rewrite !generate_ee_order_id_eval. split; [done | split; [| done]].
  intros [= H]. apply append_inv_head in H. by injection H.
Qed.

Lemma generate_ee_order_id_spec_witness :
  eval (generate_ee_order_id an_order (VStr "a@b.gov") (VStr "0101401051234")) (world_at epoch)
    = eval (generate_ee_order_id an_order (VStr "a@b.gov") (VStr "0101401051234")) (world_at epoch)
  /\ "0101401051234" = "0101401051234".
Proof.
  split; [reflexivity |].
  apply (proj1 (proj2 (generate_ee_order_id_spec an_order "a@b.gov"
                         "0101401051234" "0101401051234"
                         (world_at epoch) (world_at epoch)))).
  reflexivity.
Defined.

(** ** Default options *)

(** Closed equations and closed decidable facts are settled by running
    the model. *)
Ltac by_computation := vm_compute; reflexivity.

(** The same for equations between whole dictionaries or key sets, whose
    normal forms are large: the two sides are left to the virtual machine. *)
Ltac by_vm_conversion :=
  match goal with |- @eq ?T _ ?b => vm_cast_no_check (@eq_refl T b) end.

Ltac by_decision := apply (bool_decide_unpack _); vm_compute; exact I.

Lemma product_flags_false k :
  k ∈ product_flags -> product_defaults !! k = Some (VBool false).
Proof.
  unfold product_flags. intros Hk.
  repeat (apply elem_of_cons in Hk as [-> | Hk]; [by_computation |]).
  by apply elem_of_nil in Hk.
Qed.

Lemma product_flags_espa k :
  k ∈ product_flags -> espa_defaults !! k = Some (VBool false).
Proof.
  unfold product_flags. intros Hk.
  repeat (apply elem_of_cons in Hk as [-> | Hk]; [by_computation |]).
  by apply elem_of_nil in Hk.
Qed.

Lemma product_flags_ee k :
  k ∈ product_flags -> k ≠ "include_sr" -> k ∉ ee_omitted_flags ->
  ee_defaults !! k = Some (VBool false).
Proof.
  unfold product_flags, ee_omitted_flags. intros Hk Hsr Hom.
  repeat (apply elem_of_cons in Hk as [-> | Hk];
          [first [ congruence | exfalso; apply Hom; by_decision | by_computation ] |]).
  by apply elem_of_nil in Hk.
Qed.

Lemma ee_omitted_flags_unset k :
  k ∈ ee_omitted_flags -> ee_defaults !! k = None /\ k ∈ product_flags.
Proof.
  unfold ee_omitted_flags, product_flags. intros Hk.
  repeat (apply elem_of_cons in Hk as [-> | Hk];
          [split; [by_computation | by_decision] |]).
  by apply elem_of_nil in Hk.
Qed.

Lemma product_defaults_dom : dom product_defaults = list_to_set product_flags.
Proof. by_vm_conversion. Qed.

(** C2 (as stated, refuted).  The Earth Explorer defaults do not map every
    product flag other than [include_sr] to false: [include_swe] is a
    product flag of the self-service defaults to which they give no value. *)
Lemma ee_defaults_miss_product_flags :
  ~ (forall k, k ∈ product_flags -> k ≠ "include_sr" ->
       built (get_default_ee_options an_order) (world_at epoch) !! k
       = Some (VBool false)).
Proof.
  intros H. specialize (H "include_swe").
  assert (Hin : "include_swe" ∈ product_flags) by by_decision.
  specialize (H Hin ltac:(done)).
  vm_compute in H. discriminate H.
Qed.

(** C2 (amended).  The self-service defaults map each of the seventeen
    product flags to false, and these flags are exactly the keys of the
    product defaults.  The Earth Explorer defaults map [include_sr] to true
    and every other product flag to false, except [include_sr_msavi],
    [include_swe] and [include_sca], to which they give no value. *)
Theorem default_product_flags (self : Order) (w : world) (k : string)
    (Hk : k ∈ product_flags) :
  built (get_default_product_options self) w !! k = Some (VBool false) /\
  built (get_default_options self) w !! k = Some (VBool false) /\
  dom (built (get_default_product_options self) w) = list_to_set product_flags /\
  built (get_default_ee_options self) w !! "include_sr" = Some (VBool true) /\
  (k ≠ "include_sr" -> k ∉ ee_omitted_flags ->
   built (get_default_ee_options self) w !! k = Some (VBool false)) /\
  (k ∈ ee_omitted_flags -> built (get_default_ee_options self) w !! k = None).
Proof.
  rewrite (built_factory _ _ w (get_default_product_options_factory self)).
  rewrite (built_factory _ _ w (get_default_options_factory self)).
  rewrite (built_factory _ _ w (get_default_ee_options_factory self)).
  split; [by apply product_flags_false |].
  split; [by apply product_flags_espa |].
  split; [apply product_defaults_dom |].
  split; [by_computation |].
  split; [by apply product_flags_ee |].
  intros Hom. by apply ee_omitted_flags_unset.
Qed.

Lemma default_product_flags_witness :
  "include_sr_ndvi" ∈ product_flags /\
  built (get_default_ee_options an_order) (world_at epoch) !! "include_sr_ndvi"
  = Some (VBool false).
Proof.
  assert (Hin : "include_sr_ndvi" ∈ product_flags).
  { by_decision. }
  split; [exact Hin |].
  apply (default_product_flags an_order (world_at epoch) "include_sr_ndvi" Hin).
  - discriminate.
  - by_decision.
Defined.

(** C6.  The default option set of an Earth Explorer order maps
    [include_sr] to true, [reproject] to false and [resize] to false. *)
Theorem ee_defaults_scenario (self : Order) (w : world) :
  built (get_default_ee_options self) w !! "include_sr" = Some (VBool true) /\
  built (get_default_ee_options self) w !! "reproject" = Some (VBool false) /\
  built (get_default_ee_options self) w !! "resize" = Some (VBool false).
Proof.
  rewrite (built_factory _ _ w (get_default_ee_options_factory self)).
  repeat split; by_computation.
Qed.

(** ** Key sets *)

Lemma ee_defaults_dom_strict : dom ee_defaults ⊂ dom espa_defaults.
Proof. by_decision. Qed.

(** C8.  Every key of the Earth Explorer defaults is a key of the merged
    self-service defaults, but not conversely: [include_swe], [include_sca]
    and [include_sr_msavi] are keys of the product defaults, hence of the
    merged defaults, to which the Earth Explorer defaults give no value. *)
Theorem ee_keys_proper_subset (self : Order) (w : world) :
  (dom (built (get_default_ee_options self) w)
     ⊂ dom (built (get_default_options self) w)) /\
  Forall (fun k =>
            (k ∈ dom (built (get_default_product_options self) w)) /\
            (k ∈ dom (built (get_default_options self) w)) /\
            (k ∉ dom (built (get_default_ee_options self) w)) /\
            built (get_default_ee_options self) w !! k = None)
         ["include_swe"; "include_sca"; "include_sr_msavi"].
Proof.
  rewrite (built_factory _ _ w (get_default_product_options_factory self)).
  rewrite (built_factory _ _ w (get_default_options_factory self)).
  rewrite (built_factory _ _ w (get_default_ee_options_factory self)).
  split; [apply ee_defaults_dom_strict |].
  repeat (apply Forall_cons; split;
          [split_and!; first [by_computation | by_decision] |]).
  apply Forall_nil_2.
Qed.

(** ** The merged defaults *)

Lemma component_defaults_disjoint :
  product_defaults ##ₘ projection_defaults /\
  product_defaults ##ₘ subset_defaults /\
  product_defaults ##ₘ resize_defaults /\
  product_defaults ##ₘ resample_defaults /\
  projection_defaults ##ₘ subset_defaults /\
  projection_defaults ##ₘ resize_defaults /\
  projection_defaults ##ₘ resample_defaults /\
  subset_defaults ##ₘ resize_defaults /\
  subset_defaults ##ₘ resample_defaults /\
  resize_defaults ##ₘ resample_defaults.
Proof. split_and!; apply map_disjoint_dom; by_decision. Qed.

Lemma disjoint_agree (a b : gmap string value) k v1 v2 :
  a ##ₘ b -> a !! k = Some v1 -> b !! k = Some v2 -> v1 = v2.
Proof.
  intros Hab Ha Hb. by destruct (proj1 (map_disjoint_spec a b) Hab k v1 v2).
Qed.

Lemma consistent_five (a b c d e : gmap string value) :
  a ##ₘ b -> a ##ₘ c -> a ##ₘ d -> a ##ₘ e -> b ##ₘ c -> b ##ₘ d ->
  b ##ₘ e -> c ##ₘ d -> c ##ₘ e -> d ##ₘ e ->
  consistent [a; b; c; d; e].
Proof.
  intros Hab Hac Had Hae Hbc Hbd Hbe Hcd Hce Hde.
  intros d1 d2 k v1 v2 H1 H2 Hk1 Hk2.
  repeat (apply elem_of_cons in H1 as [-> | H1]);
    try (by apply elem_of_nil in H1);
    repeat (apply elem_of_cons in H2 as [-> | H2]);
    try (by apply elem_of_nil in H2);
    first [ congruence
          | by eapply disjoint_agree; [| exact Hk1 | exact Hk2]
          | by symmetry; eapply disjoint_agree; [| exact Hk2 | exact Hk1] ].
Qed.

Lemma component_defaults_consistent : consistent component_defaults.
Proof.
  destruct component_defaults_disjoint
    as (H12 & H13 & H14 & H15 & H23 & H24 & H25 & H34 & H35 & H45).
  by apply consistent_five.
Qed.

Lemma updates_component_defaults_union :
  updates component_defaults
  = product_defaults ∪ projection_defaults ∪ subset_defaults
      ∪ resize_defaults ∪ resample_defaults.
Proof. by_vm_conversion. Qed.

(** Whatever the order in which the component factories are merged, the
    result is the same dictionary. *)
Lemma merge_defaults_perm self fs w :
  fs ≡ₚ component_factories self ->
  built (merge_defaults fs) w = built (get_default_options self) w.
Proof.
  intros Hp.
  destruct (Permutation.Permutation_Forall2 (Permutation_sym Hp)
              (component_factories_spec self)) as (cs & Hcs & HF).
  rewrite (built_factory _ _ w (merge_defaults_factory _ _ HF)).
  rewrite (built_factory _ _ w (get_default_options_factory self)).
  rewrite <- updates_component_defaults. symmetry.
  apply updates_perm; [done | apply component_defaults_consistent].
Qed.

(** C9.  The key sets of the five component defaults are pairwise disjoint;
    the merged defaults are their union; a key is bound in the merged
    defaults exactly to what a component binds it to, and at most one
    component binds it; and merging the five components in any other order
    yields the same dictionary. *)
Theorem default_options_disjoint_union (self : Order) (w : world)
    (fs : list (M loc)) (Hfs : fs ≡ₚ component_factories self) :
  let product := built (get_default_product_options self) w in
  let projection := built (get_default_projection_options self) w in
  let subset := built (get_default_subset_options self) w in
  let resize := built (get_default_resize_options self) w in
  let resample := built (get_default_resample_options self) w in
  let merged := built (get_default_options self) w in
  (dom product ## dom projection /\ dom product ## dom subset /\
   dom product ## dom resize /\ dom product ## dom resample /\
   dom projection ## dom subset /\ dom projection ## dom resize /\
   dom projection ## dom resample /\ dom subset ## dom resize /\
   dom subset ## dom resample /\ dom resize ## dom resample) /\
  merged = product ∪ projection ∪ subset ∪ resize ∪ resample /\
  dom merged
    = dom product ∪ dom projection ∪ dom subset ∪ dom resize ∪ dom resample /\
  (forall k v,
     merged !! k = Some v <->
     exists d, d ∈ [product; projection; subset; resize; resample]
               /\ d !! k = Some v) /\
  get_default_options self w = merge_defaults (component_factories self) w /\
  built (merge_defaults fs) w = merged.
Proof.
  intros product projection subset resize resample merged.
  subst product projection subset resize resample merged.
  rewrite (merge_defaults_perm self fs w Hfs).
  rewrite (built_factory _ _ w (get_default_product_options_factory self)).
  rewrite (built_factory _ _ w (get_default_projection_options_factory self)).
  rewrite (built_factory _ _ w (get_default_subset_options_factory self)).
  rewrite (built_factory _ _ w (get_default_resize_options_factory self)).
  rewrite (built_factory _ _ w (get_default_resample_options_factory self)).
  rewrite (built_factory _ _ w (get_default_options_factory self)).
  split; [| split; [| split; [| split; [| split]]]].
  - destruct component_defaults_disjoint
      as (H12 & H13 & H14 & H15 & H23 & H24 & H25 & H34 & H35 & H45).
    split_and!; by apply map_disjoint_dom.
  - rewrite <- updates_component_defaults.
    apply updates_component_defaults_union.
  - rewrite <- updates_component_defaults, updates_component_defaults_union.
    by rewrite !dom_union_L.
  - intros k v. rewrite <- updates_component_defaults.
    apply updates_lookup, component_defaults_consistent.
  - apply get_default_options_merge.
  - done.
Qed.

Lemma default_options_disjoint_union_witness :
  built (merge_defaults
           [get_default_resample_options an_order;
            get_default_resize_options an_order;
            get_default_subset_options an_order;
            get_default_projection_options an_order;
            get_default_product_options an_order]) (world_at epoch)
  = built (get_default_options an_order) (world_at epoch).
Proof.
  apply (default_options_disjoint_union an_order (world_at epoch)).
  apply (reverse_Permutation (component_factories an_order)).
Defined.

(** ** Effects of the methods of [Order] *)

Lemma factory_returns_fresh_dict m d w : factory_of m d -> returns_fresh_dict m w.
Proof.
  intros Hm.
  destruct (Hm w) as [Hdb Hclock Hfresh Hat Hframe].
  destruct (Hm (exec m w)) as [Hdb2 Hclock2 Hfresh2 Hat2 Hframe2].
  unfold returns_fresh_dict. split_and!.
  - exact Hdb.
  - exact Hclock.
  - exact Hframe.
  - exact Hfresh.
  - by exists d.
  - intros Heq. rewrite Heq, Hat in Hfresh2. discriminate Hfresh2.
  - rewrite Hat. by apply Hframe2.
Qed.

Lemma generate_order_id_exec self email w :
  exec (generate_order_id self email) w = w.
Proof. unfold generate_order_id. by run. Qed.

Lemma generate_ee_order_id_exec self email eeorder w :
  exec (generate_ee_order_id self email eeorder) w = w.
Proof. unfold generate_ee_order_id. by run. Qed.

(** C7.  The two id generators leave the world exactly as they found it
    (the first only reads the clock).  Each default-option factory leaves
    the tables, the clock and every existing dictionary untouched, and
    hands back a dictionary that did not exist before the call, a new one
    at every call. *)
Theorem order_methods_frame (self : Order) (email eeorder : value) (w : world) :
  exec (generate_order_id self email) w = w /\
  exec (generate_ee_order_id self email eeorder) w = w /\
  returns_fresh_dict (get_default_options self) w /\
  returns_fresh_dict (get_default_ee_options self) w /\
  Forall (fun m => returns_fresh_dict m w) (component_factories self).
Proof.
  split_and!.
  - apply generate_order_id_exec.
  - apply generate_ee_order_id_exec.
  - apply (factory_returns_fresh_dict _ _ w (get_default_options_factory self)).
  - apply (factory_returns_fresh_dict _ _ w (get_default_ee_options_factory self)).
  - unfold component_factories.
    apply Forall_cons; split;
      [apply (factory_returns_fresh_dict _ _ w (get_default_product_options_factory self)) |].
    apply Forall_cons; split;
      [apply (factory_returns_fresh_dict _ _ w (get_default_projection_options_factory self)) |].
    apply Forall_cons; split;
      [apply (factory_returns_fresh_dict _ _ w (get_default_subset_options_factory self)) |].
    apply Forall_cons; split;
      [apply (factory_returns_fresh_dict _ _ w (get_default_resize_options_factory self)) |].
    apply Forall_cons; split;
      [apply (factory_returns_fresh_dict _ _ w (get_default_resample_options_factory self)) |].
    apply Forall_nil_2.
Qed.

(** ** Configuration lookup *)

Lemma str_unicode_ascii u : is_ascii u = true -> str_unicode u = Ok u.
Proof. intros H. unfold str_unicode. by rewrite H. Qed.

Lemma str_unicode_non_ascii u :
  is_ascii u = false -> str_unicode u = Raise UnicodeEncodeError.
Proof. intros H. unfold str_unicode. by rewrite H. Qed.

Lemma str_unicode_Ok u s : str_unicode u = Ok s -> s = u /\ is_ascii u = true.
Proof. unfold str_unicode. destruct (is_ascii u); [by intros [= <-] | done]. Qed.


Lemma getValue_exec self key w : exec (getValue self key) w = w.
Proof.
  unfold getValue. run.
  change (exec (Configuration_objects_filter key) w) with w.
  by destruct (0 <? length _)%nat.
Qed.

Lemma getValue_eval self key w :
  eval (getValue self key) w
  = match filter (fun r => Configuration_key r = key)
            (Configuration_objects (db w)) with
    | r :: _ => str_unicode (Configuration_value r)
    | [] => Ok ""
    end.
Proof.
  unfold getValue. run.
  change (exec (Configuration_objects_filter key) w) with w.
  change (eval (Configuration_objects_filter key) w)
    with (filter (fun r => Configuration_key r = key)
            (Configuration_objects (db w))).
  by destruct (filter _ _).
Qed.

Lemma filter_no_match key (rows : list Configuration) :
  (forall r, r ∈ rows -> Configuration_key r ≠ key) ->
  filter (fun r => Configuration_key r = key) rows = [].
Proof.
  intros Hno. induction rows as [| r rows IH]; [done |].
  rewrite filter_cons_False by (apply Hno; left).
  apply IH. intros r' Hr'. apply Hno. by right.
Qed.

Lemma filter_first_match key (pre post : list Configuration) r :
  (forall x, x ∈ pre -> Configuration_key x ≠ key) ->
  Configuration_key r = key ->
  filter (fun r => Configuration_key r = key) (pre ++ r :: post)
  = r :: filter (fun r => Configuration_key r = key) post.
Proof.
  intros Hpre Hr. rewrite filter_app, (filter_no_match key pre Hpre).
  by rewrite filter_cons_True.
Qed.

Lemma filter_cons_inv key (rows : list Configuration) r rest :
  filter (fun r => Configuration_key r = key) rows = r :: rest ->
  exists pre post,
    rows = pre ++ r :: post /\
    (forall x, x ∈ pre -> Configuration_key x ≠ key) /\
    Configuration_key r = key.
Proof.
  induction rows as [| x rows IH]; [done |].
  destruct (decide (Configuration_key x = key)) as [Hx | Hx].
  - rewrite filter_cons_True by done. intros [= -> _].
    exists [], rows. split_and!; [done | | done].
    intros y Hy. by apply elem_of_nil in Hy.
  - rewrite filter_cons_False by done. intros H.
    destruct (IH H) as (pre & post & -> & Hpre & Hr).
    exists (x :: pre), post. split_and!; [done | | done].
    intros y Hy. apply elem_of_cons in Hy as [-> | Hy]; [done | by apply Hpre].
Qed.

(** What is returned is the [str] of the value of the first row with the
    key. *)
Lemma getValue_first_match self key w pre r post :
  Configuration_objects (db w) = pre ++ r :: post ->
  (forall x, x ∈ pre -> Configuration_key x ≠ key) ->
  Configuration_key r = key ->
  eval (getValue self key) w = str_unicode (Configuration_value r).
Proof.
  intros Hrows Hpre Hr.
  by rewrite getValue_eval, Hrows, filter_first_match.
Qed.








(** * Further properties of the code *)

(** ** Strings *)

Lemma append_empty_l (s : string) : "" +:+ s = s.
Proof. reflexivity. Qed.

Lemma append_assoc (s t u : string) : (s +:+ t) +:+ u = s +:+ t +:+ u.
Proof.
  induction s as [| c s IH]; [done |]. by rewrite !append_cons, IH.
Qed.

Lemma length_append (s t : string) :
  String.length (s +:+ t) = String.length s + String.length t.
Proof.
  induction s as [| c s IH]; [done |]. rewrite append_cons. simpl. by rewrite IH.
Qed.

Lemma append_inv_tail (s s' t : string) : s +:+ t = s' +:+ t -> s = s'.
Proof.
  revert s'. induction s as [| c s IH]; intros [| c' s'] H.
  - done.
  - apply (f_equal String.length) in H.
    rewrite append_empty_l, append_cons in H. simpl in H.
    rewrite length_append in H. lia.
  - apply (f_equal String.length) in H.
    rewrite append_empty_l, append_cons in H. simpl in H.
    rewrite length_append in H. lia.
  - rewrite !append_cons in H. injection H as -> H. f_equal. by apply IH.
Qed.

Lemma contains_append_here c (s t : string) : contains c (s +:+ String c t) = true.
Proof.
  induction s as [| c' s IH].
  - simpl. by rewrite Ascii.eqb_refl.
  - rewrite append_cons. simpl. by destruct (Ascii.eqb c c').
Qed.

Lemma contains_append c (s t : string) :
  contains c (s +:+ t) = contains c s || contains c t.
Proof.
  induction s as [| c' s IH]; [done |].
  rewrite append_cons. simpl. by destruct (Ascii.eqb c c').
Qed.

(** Two strings cut at their last occurrence of a character are equal
    only if both parts are. *)
Lemma append_sep_inj c (a b e e' : string) :
  contains c e = false -> contains c e' = false ->
  a +:+ String c e = b +:+ String c e' -> a = b /\ e = e'.
Proof.
  intros He He'. revert b. induction a as [| x a IH]; intros [| y b] H.
  - rewrite !append_empty_l in H. by injection H as ->.
  - rewrite append_empty_l, append_cons in H. injection H as _ H.
    rewrite H, contains_append_here in He. discriminate He.
  - rewrite append_empty_l, append_cons in H. injection H as _ H.
    rewrite <- H, contains_append_here in He'. discriminate He'.
  - rewrite !append_cons in H. injection H as -> H.
    destruct (IH b H) as [-> ->]. done.
Qed.

Lemma numeral_length_checked : forallb numeral_length_ok (seq 0 (100 * 100)) = true.
Proof. vm_compute. reflexivity. Qed.

Lemma str_int_length (z : Z) :
  (0 <= z <= 9999)%Z ->
  1 <= String.length (str (VInt z)) <= 4 /\
  ((z <= 99)%Z -> String.length (str (VInt z)) <= 2).
Proof.
  intros Hz.
  pose proof (proj1 (forallb_forall _ _) numeral_length_checked (Z.to_nat z)) as H.
  assert (Hin : In (Z.to_nat z) (seq 0 (100 * 100))) by (apply in_seq; lia).
  specialize (H Hin). unfold numeral_length_ok in H.
  rewrite Z2Nat.id in H by lia.
  apply andb_prop in H as [H H3]. apply andb_prop in H as [H1 H2].
  apply Nat.leb_le in H1, H2. split; [lia |].
  intros Hz'. apply orb_prop in H3 as [H3 | H3].
  - apply Nat.ltb_lt in H3. lia.
  - by apply Nat.leb_le in H3.
Qed.

(** ** Order identifiers, continued *)

(** X1.  For every email and every clock, [generate_order_id] returns the
    email, a dash, the decimal numerals of month, day and year one after
    the other, a dash, and those of hour, minute and second.  It changes
    nothing, and two calls under equal clocks return the same id whatever
    the order object, the tables and the heap. *)
Theorem generate_order_id_format (self self' : Order) (email : string)
    (w w' : world) :
  eval (generate_order_id self (VStr email)) w
  = Ok (email +:+ "-" +:+ str (VInt (month (clock w)))
              +:+ str (VInt (day (clock w)))
              +:+ str (VInt (year (clock w))) +:+ "-"
              +:+ str (VInt (hour (clock w)))
              +:+ str (VInt (minute (clock w)))
              +:+ str (VInt (second (clock w)))) /\
  exec (generate_order_id self (VStr email)) w = w /\
  (clock w = clock w' ->
   eval (generate_order_id self (VStr email)) w
   = eval (generate_order_id self' (VStr email)) w').
Proof.
  split_and!.
  - apply generate_order_id_eval.
  - unfold generate_order_id. by run.
  - intros Hclock. by rewrite !generate_order_id_eval, Hclock.
Qed.

Lemma generate_order_id_format_witness :
  eval (generate_order_id an_order (VStr "a@b.gov"))
       (mk_world empty_db (mk_datetime 2014 11 25 14 30 59 0) ∅)
  = eval (generate_order_id an_order (VStr "a@b.gov"))
       (mk_world
          (mk_database [] [] [] [mk_Configuration "landsatds.username" "espa"])
          (mk_datetime 2014 11 25 14 30 59 0) ∅).
Proof.
  apply (generate_order_id_format an_order an_order "a@b.gov").
  reflexivity.
Defined.

(** X2.  The id does not determine the time of the order: whatever the
    rest of the clock, 01:11 and 11:01 of one day give the same id, and so
    do 11 January and 1 November of one year. *)
Theorem generate_order_id_ambiguous (self : Order) (email : string)
    (d : database) (h : gmap loc (gmap string value))
    (y mo dy hh mi s us : Z) :
  eval (generate_order_id self (VStr email))
       (mk_world d (mk_datetime y mo dy 1 11 s us) h)
  = eval (generate_order_id self (VStr email))
       (mk_world d (mk_datetime y mo dy 11 1 s us) h) /\
  eval (generate_order_id self (VStr email))
       (mk_world d (mk_datetime y 1 11 hh mi s us) h)
  = eval (generate_order_id self (VStr email))
       (mk_world d (mk_datetime y 11 1 hh mi s us) h).
Proof. rewrite !generate_order_id_eval. by split. Qed.

(** X3.  Under one clock, distinct emails get distinct ids. *)
Theorem generate_order_id_email_injective (self : Order) (email email' : string)
    (w : world)
    (Heq : eval (generate_order_id self (VStr email)) w
           = eval (generate_order_id self (VStr email')) w) :
  email = email'.
Proof.
  rewrite !generate_order_id_eval in Heq. injection Heq as Heq.
  by apply append_inv_tail in Heq.
Qed.

Lemma generate_order_id_email_injective_witness : "a@b.gov" = "a@b.gov".
Proof.
  apply (generate_order_id_email_injective an_order "a@b.gov" "a@b.gov"
           (world_at epoch)).
  reflexivity.
Defined.

(** X4.  Under a clock that [datetime.now()] can return, the id of a
    self-service order is between 8 and 16 characters longer than the
    email, and the id of an Earth Explorer order is one character longer
    than email and Earth Explorer id together.  So both fit the [orderid]
    column when the email has at most 239 characters and the Earth
    Explorer id fits its own column. *)
Theorem order_ids_fit_column (self : Order) (email eeorder : string) (w : world)
    (Hclock : valid_datetime (clock w))
    (Hemail : String.length email <= 239)
    (Hee : String.length eeorder <= Order_ee_order_id_max_length) :
  (exists id, eval (generate_order_id self (VStr email)) w = Ok id /\
              String.length email + 8 <= String.length id /\
              String.length id <= String.length email + 16 /\
              String.length id <= Order_orderid_max_length) /\
  (exists id, eval (generate_ee_order_id self (VStr email) (VStr eeorder)) w = Ok id /\
              String.length id = String.length email + 1 + String.length eeorder /\
              String.length id <= Order_orderid_max_length).
Proof.
  unfold Order_orderid_max_length, Order_ee_order_id_max_length in *.
  destruct Hclock as (Hy & Hmo & Hd & Hh & Hmi & Hs & _).
  split.
  - eexists. split; [apply generate_order_id_eval |].
    rewrite !length_append.
    destruct (str_int_length (year (clock w))) as [Y _]; [lia |].
    destruct (str_int_length (month (clock w))) as [M1 M2]; [lia |].
    destruct (str_int_length (day (clock w))) as [D1 D2]; [lia |].
    destruct (str_int_length (hour (clock w))) as [H1 H2]; [lia |].
    destruct (str_int_length (minute (clock w))) as [I1 I2]; [lia |].
    destruct (str_int_length (second (clock w))) as [S1 S2]; [lia |].
    specialize (M2 ltac:(lia)). specialize (D2 ltac:(lia)).
    specialize (H2 ltac:(lia)). specialize (I2 ltac:(lia)).
    specialize (S2 ltac:(lia)).
    change (String.length "-") with 1. lia.
  - eexists. split; [apply generate_ee_order_id_eval |].
    rewrite !length_append. change (String.length "-") with 1. lia.
Qed.

Lemma order_ids_fit_column_witness :
  exists id,
    eval (generate_order_id an_order (VStr "a@b.gov"))
         (mk_world empty_db (mk_datetime 2014 11 25 14 30 59 0) ∅) = Ok id /\
    String.length "a@b.gov" + 8 <= String.length id /\
    String.length id <= String.length "a@b.gov" + 16 /\
    String.length id <= Order_orderid_max_length.
Proof.
  apply (order_ids_fit_column an_order "a@b.gov" "0101401051234"
           (mk_world empty_db (mk_datetime 2014 11 25 14 30 59 0) ∅)).
  - unfold valid_datetime. simpl. lia.
  - simpl. lia.
  - unfold Order_ee_order_id_max_length. simpl. lia.
Defined.

(** X5.  An Earth Explorer order id that contains a dash makes the id
    ambiguous: the email [e] with Earth Explorer id [p-x] and the email
    [e-p] with Earth Explorer id [x] are different pairs with the same
    order id. *)
Theorem generate_ee_order_id_dash_ambiguity (self : Order) (email p x : string)
    (w : world) :
  eval (generate_ee_order_id self (VStr email) (VStr (p +:+ "-" +:+ x))) w
  = eval (generate_ee_order_id self (VStr (email +:+ "-" +:+ p)) (VStr x)) w /\
  email <> email +:+ "-" +:+ p.
Proof.
  rewrite !generate_ee_order_id_eval. split.
  - by rewrite !append_assoc.
  - intros H. apply (f_equal String.length) in H.
    rewrite !length_append in H. change (String.length "-") with 1 in H. lia.
Qed.

(** X6.  Among Earth Explorer ids without a dash the id is unambiguous:
    equal order ids come from equal emails and equal Earth Explorer ids. *)
Theorem generate_ee_order_id_pair_injective (self : Order)
    (email email' eeorder eeorder' : string) (w w' : world)
    (Hee : contains "-" eeorder = false)
    (Hee' : contains "-" eeorder' = false)
    (Heq : eval (generate_ee_order_id self (VStr email) (VStr eeorder)) w
           = eval (generate_ee_order_id self (VStr email') (VStr eeorder')) w') :
  email = email' /\ eeorder = eeorder'.
Proof.
  rewrite !generate_ee_order_id_eval in Heq. injection Heq as Heq.
  by apply (append_sep_inj "-" email email' eeorder eeorder').
Qed.

Lemma generate_ee_order_id_pair_injective_witness :
  "a@b-c.gov" = "a@b-c.gov" /\ "0101401051234" = "0101401051234".
Proof.
  apply (generate_ee_order_id_pair_injective an_order
           "a@b-c.gov" "a@b-c.gov" "0101401051234" "0101401051234"
           (world_at epoch) (world_at epoch)); reflexivity.
Defined.

(** X7.  The two generators share one space of ids.  For every clock
    there is an Earth Explorer id, the date and time fields joined by a
    dash, for which [generate_ee_order_id] returns the very id that
    [generate_order_id] returns for the same email; but for the same email
    and an Earth Explorer id without a dash the two ids always differ. *)
Theorem order_id_spaces_overlap (self : Order) (email eeorder : string)
    (w w' : world) :
  eval (generate_ee_order_id self (VStr email)
          (VStr ((str (VInt (month (clock w))) +:+ str (VInt (day (clock w)))
                    +:+ str (VInt (year (clock w))))
                 +:+ "-"
                 +:+ str (VInt (hour (clock w)))
                 +:+ str (VInt (minute (clock w)))
                 +:+ str (VInt (second (clock w)))))) w'
  = eval (generate_order_id self (VStr email)) w /\
  (contains "-" eeorder = false ->
   eval (generate_ee_order_id self (VStr email) (VStr eeorder)) w'
   ≠ eval (generate_order_id self (VStr email)) w).
Proof.
  rewrite !generate_ee_order_id_eval, generate_order_id_eval. split.
  - by rewrite !append_assoc.
  - intros Hee [= H]. apply append_inv_head in H.
    change ("-" +:+ eeorder) with (String "-" eeorder) in H.
    injection H as H.
    rewrite H, !contains_append in Hee.
    change (contains "-" "-") with true in Hee.
    rewrite orb_true_l, !orb_true_r in Hee. discriminate Hee.
Qed.

Lemma order_id_spaces_overlap_witness :
  eval (generate_ee_order_id an_order (VStr "a@b.gov") (VStr "0101401051234"))
       (world_at epoch)
  ≠ eval (generate_order_id an_order (VStr "a@b.gov"))
       (mk_world empty_db (mk_datetime 2014 1 5 9 5 3 0) ∅).
Proof.
  apply (order_id_spaces_overlap an_order "a@b.gov" "0101401051234").
  reflexivity.
Defined.

(** ** Configuration lookup, continued *)

(** X8.  [getValue] only reads: it leaves the world as it found it, and
    its result depends on nothing but the key and the rows of the
    configuration table, not on the row it is called on, nor on the other
    tables, the clock or the heap. *)
Theorem getValue_reads_only (self self' : Configuration) (key : string)
    (w w' : world) :
  exec (getValue self key) w = w /\
  (Configuration_objects (db w) = Configuration_objects (db w') ->
   eval (getValue self key) w = eval (getValue self' key) w').
Proof.
  split; [apply getValue_exec |].
  intros Hrows. by rewrite !getValue_eval, Hrows.
Qed.

Lemma getValue_reads_only_witness :
  eval (getValue (mk_Configuration "landsatds.host" "edclpdsftp.cr.usgs.gov")
          "landsatds.username")
       (mk_world
          (mk_database [] [] [] [mk_Configuration "landsatds.username" "espa"])
          epoch ∅)
  = eval (getValue (mk_Configuration "landsatds.username" "espa")
            "landsatds.username")
       (mk_world
          (mk_database [] [an_order] [] [mk_Configuration "landsatds.username" "espa"])
          (mk_datetime 2014 1 5 9 5 3 0) ∅).
Proof.
  apply (getValue_reads_only _ _ "landsatds.username"). reflexivity.
Defined.

(** X9.  When the keys of the table are unique, as the schema asks,
    looking up the key of any stored row returns the value of that row if
    it is ASCII text, and raises [UnicodeEncodeError] if it has a non-ASCII
    character. *)
Theorem getValue_stored_row (self : Configuration) (w : world) (r : Configuration)
    (Hunique : NoDup (Configuration_key <$> Configuration_objects (db w)))
    (Hr : r ∈ Configuration_objects (db w)) :
  (is_ascii (Configuration_value r) = true ->
   eval (getValue self (Configuration_key r)) w = Ok (Configuration_value r)) /\
  (is_ascii (Configuration_value r) = false ->
   eval (getValue self (Configuration_key r)) w = Raise UnicodeEncodeError).
Proof.
  apply list_elem_of_split in Hr as (pre & post & Hrows).
  assert (Hpre : forall x, x ∈ pre -> Configuration_key x ≠ Configuration_key r).
  { intros x Hx Hkey. rewrite Hrows, fmap_app, fmap_cons in Hunique.
    apply NoDup_app in Hunique as (_ & Hdisj & _).
    apply (Hdisj (Configuration_key x)).
    - apply list_elem_of_fmap. by exists x.
    - rewrite Hkey. left. }
  rewrite (getValue_first_match self _ w pre r post Hrows Hpre eq_refl).
  split; intros Hascii.
  - by apply str_unicode_ascii.
  - by apply str_unicode_non_ascii.
Qed.

Lemma getValue_stored_row_witness :
  eval (getValue (mk_Configuration "landsatds.host" "edclpdsftp.cr.usgs.gov")
          "landsatds.username")
       (mk_world
          (mk_database [] [] []
             [mk_Configuration "landsatds.host" "edclpdsftp.cr.usgs.gov";
              mk_Configuration "landsatds.username" "espa"])
          epoch ∅)
  = Ok "espa".
Proof.
  apply (getValue_stored_row _ _ (mk_Configuration "landsatds.username" "espa")).
  - by_decision.
  - simpl. apply elem_of_cons. right. apply elem_of_cons. by left.
  - reflexivity.
Defined.

(** X10.  [getValue] cannot tell a missing key from an empty value: it
    returns the empty string exactly when no row has the key or the first
    row that has it stores the empty string.  Any other result is the
    value of a row of the table with that key. *)
Theorem getValue_empty_or_stored (self : Configuration) (key : string) (w : world) :
  (eval (getValue self key) w = Ok "" <->
   (forall r, r ∈ Configuration_objects (db w) -> Configuration_key r ≠ key) \/
   (exists pre r post,
      Configuration_objects (db w) = pre ++ r :: post /\
      (forall x, x ∈ pre -> Configuration_key x ≠ key) /\
      Configuration_key r = key /\ Configuration_value r = "")) /\
  (forall s, eval (getValue self key) w = Ok s -> s ≠ "" ->
     exists r, r ∈ Configuration_objects (db w) /\
               Configuration_key r = key /\ Configuration_value r = s).
Proof.
  split; [split |].
  - rewrite getValue_eval.
    destruct (filter _ _) as [| r rest] eqn:Hf.
    + intros _. left. intros r Hr Hkey.
      apply (filter_nil_not_elem_of _ _ r Hf); done.
    + intros Hv. apply str_unicode_Ok in Hv as [Hv _]. right.
      destruct (filter_cons_inv _ _ _ _ Hf) as (pre & post & Hrows & Hpre & Hr).
      by exists pre, r, post.
  - intros [Hno | (pre & r & post & Hrows & Hpre & Hr & Hv)].
    + by rewrite getValue_eval, filter_no_match.
    + by rewrite (getValue_first_match self key w pre r post), Hv.
  - intros s. rewrite getValue_eval.
    destruct (filter _ _) as [| r rest] eqn:Hf; [by intros [= <-] Hs |].
    intros He Hs. apply str_unicode_Ok in He as [-> _].
    destruct (filter_cons_inv _ _ _ _ Hf) as (pre & post & Hrows & Hpre & Hr).
    exists r. split_and!; [| done | done].
    rewrite Hrows. apply elem_of_app. right. left.
Qed.

Lemma getValue_empty_or_stored_witness :
  exists r,
    r ∈ [mk_Configuration "landsatds.username" "espa"] /\
    Configuration_key r = "landsatds.username" /\
    Configuration_value r = "espa".
Proof.
  apply (proj2 (getValue_empty_or_stored
                  (mk_Configuration "landsatds.username" "espa")
                  "landsatds.username"
                  (mk_world
                     (mk_database [] [] []
                        [mk_Configuration "landsatds.username" "espa"])
                     epoch ∅)) "espa").
  - reflexivity.
  - discriminate.
Defined.

(** X11.  A row with another key, wherever it stands in the table, does
    not change what [getValue] returns for a key. *)
Theorem getValue_other_keys (self : Configuration) (key : string) (w : world)
    (pre post : list Configuration) (r : Configuration)
    (Hr : Configuration_key r ≠ key) :
  eval (getValue self key) (with_configuration (pre ++ r :: post) w)
  = eval (getValue self key) (with_configuration (pre ++ post) w).
Proof.
  rewrite !getValue_eval. unfold with_configuration; simpl.
  by rewrite !filter_app, filter_cons_False.
Qed.

Lemma getValue_other_keys_witness :
  eval (getValue (mk_Configuration "landsatds.username" "espa")
          "landsatds.username")
       (with_configuration
          ([] ++ mk_Configuration "landsatds.host" "edclpdsftp.cr.usgs.gov"
              :: [mk_Configuration "landsatds.username" "espa"])
          (world_at epoch))
  = eval (getValue (mk_Configuration "landsatds.username" "espa")
            "landsatds.username")
       (with_configuration
          ([] ++ [mk_Configuration "landsatds.username" "espa"])
          (world_at epoch)).
Proof.
  apply (getValue_other_keys _ "landsatds.username" (world_at epoch) []
           [mk_Configuration "landsatds.username" "espa"]
           (mk_Configuration "landsatds.host" "edclpdsftp.cr.usgs.gov")).
  discriminate.
Defined.

(** ** Default options, continued *)





Lemma ee_defaults_values k v :
  ee_defaults !! k = Some v ->
  (k = "include_sr" /\ v = VBool true) \/
  (k ≠ "include_sr" /\ v = VBool false /\ espa_defaults !! k = Some (VBool false)).
Proof.
  intros Hkv. apply elem_of_map_to_list in Hkv.
  remember (map_to_list ee_defaults) as l eqn:Hl.
  vm_compute in Hl. subst l.
  repeat (apply elem_of_cons in Hkv as [[= -> ->] | Hkv];
          [first [ by left
                 | right; split_and!; [discriminate | reflexivity | by_computation] ] |]).
  by apply elem_of_nil in Hkv.
Qed.

Lemma ee_defaults_dom :
  dom ee_defaults
  = list_to_set
      ["include_sourcefile"; "include_source_metadata"; "include_sr_toa";
       "include_sr_thermal"; "include_sr"; "include_sr_browse";
       "include_sr_ndvi"; "include_sr_ndmi"; "include_sr_nbr";
       "include_sr_nbr2"; "include_sr_savi"; "include_sr_evi";
       "include_solr_index"; "include_cfmask"; "reproject"; "resize";
       "image_extents"].
Proof. by_vm_conversion. Qed.

(** X13.  The Earth Explorer defaults bind seventeen keys: fourteen
    product flags and the three switches.  The only key bound to true is
    [include_sr]; every other key is bound to false, which is also what
    the merged self-service defaults bind it to.  So the Earth Explorer
    defaults are the self-service defaults cut down to these keys, with
    surface reflectance turned on. *)
Theorem ee_defaults_versus_espa (self : Order) (w : world) :
  dom (built (get_default_ee_options self) w)
  = list_to_set
      ["include_sourcefile"; "include_source_metadata"; "include_sr_toa";
       "include_sr_thermal"; "include_sr"; "include_sr_browse";
       "include_sr_ndvi"; "include_sr_ndmi"; "include_sr_nbr";
       "include_sr_nbr2"; "include_sr_savi"; "include_sr_evi";
       "include_solr_index"; "include_cfmask"; "reproject"; "resize";
       "image_extents"] /\
  size (built (get_default_ee_options self) w) = 17 /\
  (forall k v,
     built (get_default_ee_options self) w !! k = Some v ->
     (k = "include_sr" /\ v = VBool true) \/
     (k ≠ "include_sr" /\ v = VBool false /\
      built (get_default_options self) w !! k = Some (VBool false))).
Proof.
  rewrite (built_factory _ _ w (get_default_ee_options_factory self)).
  rewrite (built_factory _ _ w (get_default_options_factory self)).
  split_and!.
  - apply ee_defaults_dom.
  - by_computation.
  - apply ee_defaults_values.
Qed.

Lemma ee_defaults_versus_espa_witness :
  ("reproject" = "include_sr" /\ VBool false = VBool true) \/
  ("reproject" ≠ "include_sr" /\ VBool false = VBool false /\
   built (get_default_options an_order) (world_at epoch) !! "reproject"
   = Some (VBool false)).
Proof.
  apply (proj2 (proj2 (ee_defaults_versus_espa an_order (world_at epoch)))
           "reproject" (VBool false)).
  by_computation.
Defined.

(** A caller that changes the dictionary it was handed changes that
    dictionary only. *)
Lemma factory_not_shared m d w k v :
  factory_of m d ->
  let o := eval m w in
  let w2 := exec (setitem o k v) (exec m w) in
  eval m w2 ≠ o /\
  heap (exec m w2) !! eval m w2 = Some d /\
  heap (exec m w2) !! o = Some (<[k := v]> d).
Proof.
  intros Hm o w2.
  pose proof (Hm w) as H1.
  pose proof (builds_setitem _ _ _ _ k v H1) as H2. fold o in H2. fold w2 in H2.
  destruct H2 as [_ _ _ Hat2 _].
  destruct (Hm w2) as [_ _ Hfresh3 Hat3 Hframe3].
  split_and!.
  - intros Heq. rewrite Heq, Hat2 in Hfresh3. discriminate Hfresh3.
  - exact Hat3.
  - by apply Hframe3.
Qed.

(** X14.  The defaults are not shared between calls.  After a caller has
    set any key of the dictionary returned by [get_default_options] or
    [get_default_ee_options], the next call returns another dictionary
    with the pristine defaults, and the first dictionary keeps the
    caller's change. *)
Theorem default_options_not_shared (self : Order) (w : world) (k : string)
    (v : value) :
  (let o := eval (get_default_options self) w in
   let w2 := exec (setitem o k v) (exec (get_default_options self) w) in
   eval (get_default_options self) w2 ≠ o /\
   built (get_default_options self) w2 = built (get_default_options self) w /\
   heap (exec (get_default_options self) w2) !! o
   = Some (<[k := v]> (built (get_default_options self) w))) /\
  (let o := eval (get_default_ee_options self) w in
   let w2 := exec (setitem o k v) (exec (get_default_ee_options self) w) in
   eval (get_default_ee_options self) w2 ≠ o /\
   built (get_default_ee_options self) w2 = built (get_default_ee_options self) w /\
   heap (exec (get_default_ee_options self) w2) !! o
   = Some (<[k := v]> (built (get_default_ee_options self) w))).
Proof.
  split; intros o w2.
  - destruct (factory_not_shared _ _ w k v (get_default_options_factory self))
      as (Hne & Hnew & Hold).
    rewrite !(built_factory _ _ _ (get_default_options_factory self)).
    by split_and!.
  - destruct (factory_not_shared _ _ w k v (get_default_ee_options_factory self))
      as (Hne & Hnew & Hold).
    rewrite !(built_factory _ _ _ (get_default_ee_options_factory self)).
    by split_and!.
Qed.

(** ** Choice codes and columns *)

(** X15.  Every choice code fits the column that stores it (order type in
    50 characters, order status in 20, order source in 10, scene status in
    30), and no tuple of choices lists a code twice. *)
Theorem choice_codes_fit_columns :
  Forall (fun c => String.length c <= Order_order_type_max_length)
         (ORDER_TYPES.*1) /\
  Forall (fun c => String.length c <= Order_status_max_length)
         (Order_STATUS.*1) /\
  Forall (fun c => String.length c <= Order_order_source_max_length)
         (ORDER_SOURCE.*1) /\
  Forall (fun c => String.length c <= Scene_status_max_length)
         (Scene_STATUS.*1) /\
  NoDup (ORDER_TYPES.*1) /\ NoDup (Order_STATUS.*1) /\
  NoDup (ORDER_SOURCE.*1) /\ NoDup (Scene_STATUS.*1).
Proof. split_and!; by_decision. Qed.

(** ** Display *)

(** X16.  The display methods never raise and change nothing: an order
    shows its id, a scene its name followed by its status in brackets, a
    configuration row its key and value around a colon. *)
Theorem display_methods (o : Order) (s : Scene) (c : Configuration) (w : world) :
  Order__unicode__ o w = (Ok (Order_orderid o), w) /\
  Scene__unicode__ s w
  = (Ok (Scene_name s +:+ " (" +:+ Scene_status s +:+ ")"), w) /\
  Configuration__unicode__ c w
  = (Ok (Configuration_key c +:+ " : " +:+ Configuration_value c), w).
Proof.
  split_and!.
  - reflexivity.
  - unfold Scene__unicode__.
    lazy [percent_format Ascii.eqb Bool.eqb result_map result_bind str].
    reflexivity.
  - unfold Configuration__unicode__.
    lazy [percent_format Ascii.eqb Bool.eqb result_map result_bind str].
    by rewrite append_empty_r.
Qed.
